(** * Archive index generator: a model of [archive-generator.py]

    The script walks a directory, builds a tree of folder and file
    dictionaries, counts the files and dumps the tree as JSON.  This file
    embeds [scan_directory], [count_files], [generate_archive_index],
    [save_archive_index] and [main] as Rocq functions over an explicit
    description of the file system and of the console, and proves the
    properties the specification states about them. *)

From Stdlib Require Import List String Ascii Bool Arith Lia Permutation Sorted.
From Stdlib Require Import NArith.
Import ListNotations.
Open Scope string_scope.
Open Scope list_scope.

Set Implicit Arguments.
Set Warnings "-register-all".

(** ** Names and their order

    A Python [str] is modelled by the string of its UTF-8 bytes.  Python
    compares [str] values code point by code point; on UTF-8 encodings that
    is the byte-wise lexicographic order, which is [String.compare]. *)

(** [list.sort()] on a list of [str].  The order is total and antisymmetric,
    so the sorted list is determined by the elements alone; insertion sort
    computes it. *)

Fixpoint insert (x : string) (l : list string) : list string :=
  match l with
  | [] => [x]
  | y :: l' => if String.leb x y then x :: l else y :: insert x l'
  end.

Fixpoint sort (l : list string) : list string :=
  match l with
  | [] => []
  | x :: l' => insert x (sort l')
  end.

(** ** Paths

    The host decides [os.sep]. *)

Inductive flavour := Posix | Nt.

Definition backslash : ascii := Ascii.ascii_of_nat 92.
Definition slash : ascii := Ascii.ascii_of_nat 47.

Definition sep (os : flavour) : string :=
  match os with
  | Posix => String slash EmptyString
  | Nt => String backslash EmptyString
  end.

(** A path the script handles is the text the user supplied followed by the
    names that [os.path.join] appended, one per call.  The appended names
    come from [os.listdir], so each is a single component. *)

Record fspath := { base : string; rel : list string }.

Definition root_of (folder_path : string) : fspath :=
  {| base := folder_path; rel := [] |}.

Definition join (p : fspath) (item : string) : fspath :=
  {| base := base p; rel := rel p ++ [item] |}.

Fixpoint commonprefix (a b : list string) : list string :=
  match a, b with
  | x :: a', y :: b' => if String.eqb x y then x :: commonprefix a' b' else []
  | _, _ => []
  end.

(** [os.path.relpath(path, start)]: both component lists are compared, one
    [..] is emitted for each component of [start] that is not shared, then
    the rest of [path]; the result is joined with [os.sep].  Both arguments
    always extend the same supplied text here, whose own components are
    shared and drop out. *)

Definition relpath (os : flavour) (p start : fspath) : string :=
  let start_list := rel start in
  let path_list := rel p in
  let i := List.length (commonprefix start_list path_list) in
  let rel_list := repeat ".." (List.length start_list - i) ++ skipn i path_list in
  match rel_list with
  | [] => "."
  | _ => String.concat (sep os) rel_list
  end.

(** [s.replace('\\', '/')] *)

Fixpoint replace_backslash (s : string) : string :=
  match s with
  | EmptyString => EmptyString
  | String a s' =>
      String (if Ascii.eqb a backslash then slash else a) (replace_backslash s')
  end.

(** ** The tree

    A node is one of the two dictionaries the script builds:
    [{"name", "type": "folder", "children"}] or
    [{"name", "type": "file", "path"}]. *)

Inductive node :=
| Folder (name : string) (children : list node)
| File (name : string) (path : string).

Definition node_name (n : node) : string :=
  match n with
  | Folder name _ => name
  | File name _ => name
  end.

Definition node_type (n : node) : string :=
  match n with
  | Folder _ _ => "folder"
  | File _ _ => "file"
  end.

Definition node_children (n : node) : list node :=
  match n with
  | Folder _ children => children
  | File _ _ => []
  end.

Definition is_file (n : node) : bool := String.eqb (node_type n) "file".
Definition is_folder (n : node) : bool := String.eqb (node_type n) "folder".

(** ** The file system

    What [os.path.isdir] and [os.path.isfile] see of a directory entry.
    Both follow symbolic links: a link answers as its target does, and a
    link whose target is missing answers [False] to both. *)

Inductive ftype := TDir | TReg | TSpecial.

Inductive entry :=
| Plain (t : ftype)
| Symlink (target : option ftype).

Definition resolve (e : entry) : option ftype :=
  match e with
  | Plain t => Some t
  | Symlink target => target
  end.

Definition isdir (e : entry) : bool :=
  match resolve e with
  | Some TDir => true
  | _ => false
  end.

Definition isfile (e : entry) : bool :=
  match resolve e with
  | Some TReg => true
  | _ => false
  end.

(** The exceptions the two handlers of [scan_directory] tell apart;
    [msg] is [str(e)]. *)

Inductive exn :=
| PermissionError
| OtherException (msg : string).

(** A directory as [os.listdir] finds it: either the call raises, or it
    returns the names in some order; [stat item] describes the entry
    [os.path.join(path, item)] and [sub item] the directory found there. *)

Inductive fs :=
| ListError (e : exn)
| Listing (items : list string) (stat : string -> entry) (sub : string -> fs).

(** ** Console and disk *)

Inductive json :=
| JString (s : string)
| JArray (l : list json)
| JObject (fields : list (string * json)).

Inductive line :=
| WarnPermission (p : fspath)
| WarnError (p : fspath) (msg : string)
| Scanning
| Found (file_count : nat)
| SavedTo (output_path : fspath)
| NotFound (folder_path : string)
| NotAFolder (folder_path : string)
| Success.

(** What a run does that can be observed: a line printed, a call of
    [open(output_path, 'w')], the document dumped into the file.  The
    banner and the prompts carry no data and are left out. *)

Inductive event :=
| Print (l : line)
| Open (output_path : fspath)
| Dump (output_path : fspath) (doc : json).

(** ** The body of a [try] block

    The block runs over the [children] list of [result] and the console;
    it ends normally or with an exception, and what it appended before
    stays appended. *)

Record frame := { result_children : list node; console : list event }.

Definition M (A : Type) : Type := frame -> frame * (exn + A).

Definition ret {A} (a : A) : M A := fun s => (s, inr a).

Definition bind {A B} (m : M A) (k : A -> M B) : M B :=
  fun s =>
    match m s with
    | (s', inl e) => (s', inl e)
    | (s', inr a) => k a s'
    end.

Definition raise {A} (e : exn) : M A := fun s => (s, inl e).

Notation "x <- m ;; k" := (bind m (fun x => k))
  (at level 100, m at next level, right associativity).
Notation "m ;;; k" := (bind m (fun _ => k))
  (at level 100, right associativity).

(** [result["children"].append(child)] *)

Definition append_child (child : node) : M unit :=
  fun s => ({| result_children := result_children s ++ [child];
               console := console s |}, inr tt).

(** A nested call that returned: what it printed is on the console, its
    value is handed back. *)

Definition call (r : node * list event) : M node :=
  fun s => ({| result_children := result_children s;
               console := console s ++ snd r |}, inr (fst r)).

Fixpoint for_each {A} (l : list A) (body : A -> M unit) : M unit :=
  match l with
  | [] => ret tt
  | x :: l' => body x ;;; for_each l' body
  end.

(** The two [except] clauses. *)

Definition handler (e : exn) (path : fspath) : line :=
  match e with
  | PermissionError => WarnPermission path
  | OtherException msg => WarnError path msg
  end.

Definition try_except (name : string) (path : fspath) (body : M unit)
  : node * list event :=
  match body {| result_children := []; console := [] |} with
  | (s, inr _) => (Folder name (result_children s), console s)
  | (s, inl e) =>
      (Folder name (result_children s), console s ++ [Print (handler e path)])
  end.

(** ** [scan_directory] *)

(** The loop that separates folders and files. *)

Fixpoint classify (stat : string -> entry) (items : list string)
  : list string * list string :=
  match items with
  | [] => ([], [])
  | item :: rest =>
      let (folders, files) := classify stat rest in
      if isdir (stat item) then (item :: folders, files)
      else if isfile (stat item) then (folders, item :: files)
      else (folders, files)
  end.

Definition file_node (os : flavour) (root_folder_path path : fspath)
    (file : string) : node :=
  let file_path := join path file in
  let relative_path := relpath os file_path root_folder_path in
  let relative_path := replace_backslash relative_path in
  File file ("old-articles/" ++ relative_path).

Fixpoint scan_directory (os : flavour) (root_folder_path : fspath) (d : fs)
    (path : fspath) (name : string) {struct d} : node * list event :=
  try_except name path
    match d with
    | ListError e => raise e
    | Listing items stat sub =>
        let (folders, files) := classify stat items in
        let folders := sort folders in
        let files := sort files in
        for_each folders (fun folder =>
          let folder_path := join path folder in
          child <- call (scan_directory os root_folder_path (sub folder)
                           folder_path folder) ;;
          append_child child) ;;;
        for_each files (fun file =>
          append_child (file_node os root_folder_path path file))
    end.

(** ** [count_files] *)

Fixpoint count_files (n : node) : nat :=
  match n with
  | File _ _ => 1
  | Folder _ children =>
      fold_left (fun count child => count + count_files child) children 0
  end.

(** ** [generate_archive_index]

    The script also computes [folder_name], the base name of the root, and
    never uses it; the root is scanned under the name [old-articles]. *)

Definition generate_archive_index (os : flavour) (root_folder_path : string)
    (d : fs) : node * list event :=
  let (structure, warnings) :=
    scan_directory os (root_of root_folder_path) d (root_of root_folder_path)
      "old-articles" in
  let file_count := count_files structure in
  (structure, [Print Scanning] ++ warnings ++ [Print (Found file_count)]).

(** ** [save_archive_index]

    [json.dump] writes the dictionaries as objects, keys in insertion
    order.  The indentation is not modelled. *)

Fixpoint to_json (n : node) : json :=
  match n with
  | Folder name children =>
      JObject [("name", JString name); ("type", JString "folder");
               ("children", JArray (map to_json children))]
  | File name path =>
      JObject [("name", JString name); ("type", JString "file");
               ("path", JString path)]
  end.

(** What happens when a path is opened for writing and the document is
    dumped into it. *)

Inductive write_result :=
| Written
| OpenFails (e : exn)
| DumpFails (e : exn).

(** No [try] here: an exception of [open] or of [json.dump] leaves the
    function. *)

Definition save_archive_index (disk : fspath -> write_result)
    (structure : node) (output_path : fspath) : list event * (exn + unit) :=
  match disk output_path with
  | OpenFails e => ([Open output_path], inl e)
  | DumpFails e => ([Open output_path], inl e)
  | Written =>
      ([Open output_path; Dump output_path (to_json structure);
        Print (SavedTo output_path)], inr tt)
  end.

(** ** [main] *)

Record world := {
  path_exists : string -> bool;
  path_isdir : string -> bool;
  directory : string -> fs;
  disk : fspath -> write_result
}.

(** The three answers read from the keyboard, each after its [strip]
    calls. *)

Record answers := {
  folder_path : string;
  choice : string;
  custom_location : string
}.

Definition endswith (s suffix : string) : bool :=
  let n := String.length s in
  let m := String.length suffix in
  Nat.leb m n && String.eqb (substring (n - m) m s) suffix.

Definition output_path_of (a : answers) : fspath :=
  if String.eqb (choice a) "2" then
    if endswith (custom_location a) ".json" then root_of (custom_location a)
    else join (root_of (custom_location a)) "archive-index.json"
  else root_of "archive-index.json".

Definition main (os : flavour) (w : world) (a : answers)
  : list event * (exn + unit) :=
  if negb (path_exists w (folder_path a)) then
    ([Print (NotFound (folder_path a))], inr tt)
  else if negb (path_isdir w (folder_path a)) then
    ([Print (NotAFolder (folder_path a))], inr tt)
  else
    let (structure, out) :=
      generate_archive_index os (folder_path a) (directory w (folder_path a)) in
    let output_path := output_path_of a in
    match save_archive_index (disk w) structure output_path with
    | (out', inl e) => (out ++ out', inl e)
    | (out', inr _) => (out ++ out' ++ [Print Success], inr tt)
    end.

(** ** Vocabulary of the specification *)

(** Every node reachable from [n], [n] included. *)

Fixpoint subnodes (n : node) : list node :=
  n :: match n with
       | Folder _ children => flat_map subnodes children
       | File _ _ => []
       end.

(** The file nodes below [n], each with the names of the folder nodes that
    lead to it from [n] (the name of [n] itself is not part of it). *)

Fixpoint files_at (loc : list string) (n : node)
  : list (list string * string * string) :=
  match n with
  | File name path => [(loc, name, path)]
  | Folder _ children =>
      flat_map (fun child =>
                  files_at (match child with
                            | Folder d _ => loc ++ [d]
                            | File _ _ => loc
                            end) child) children
  end.

(** A regular file the scan discovers: [f] is listed as a file in the
    directory reached from [d] through the listed directories [loc]. *)

Inductive discovered : fs -> list string -> string -> Prop :=
| discovered_here items stat sub f :
    In f items -> isdir (stat f) = false -> isfile (stat f) = true ->
    discovered (Listing items stat sub) [] f
| discovered_below items stat sub d loc f :
    In d items -> isdir (stat d) = true -> discovered (sub d) loc f ->
    discovered (Listing items stat sub) (d :: loc) f.

(** Folders before files, each group ascending by name. *)

Fixpoint ascending (l : list string) : bool :=
  match l with
  | x :: (y :: _) as t => String.leb x y && ascending t
  | _ => true
  end.

Fixpoint folders_first (cs : list node) : bool :=
  match cs with
  | [] => true
  | c :: cs' => if is_file c then forallb is_file cs' else folders_first cs'
  end.

Definition ordered_children (cs : list node) : bool :=
  folders_first cs
  && ascending (map node_name (filter is_folder cs))
  && ascending (map node_name (filter is_file cs)).

Fixpoint well_ordered (n : node) : bool :=
  match n with
  | File _ _ => true
  | Folder _ children => ordered_children children && forallb well_ordered children
  end.

(** Two directories with the same relative tree of subdirectory and file
    names.  The order of the listings, the entries that are neither, the
    reason a directory cannot be listed and where the directories live are
    free. *)

Inductive same_structure : fs -> fs -> Prop :=
| same_listing items1 stat1 sub1 items2 stat2 sub2 :
    Permutation (fst (classify stat1 items1)) (fst (classify stat2 items2)) ->
    Permutation (snd (classify stat1 items1)) (snd (classify stat2 items2)) ->
    (forall d, In d (fst (classify stat1 items1)) ->
               same_structure (sub1 d) (sub2 d)) ->
    same_structure (Listing items1 stat1 sub1) (Listing items2 stat2 sub2)
| same_unlisted e1 e2 :
    same_structure (ListError e1) (ListError e2).

(** [sub] with the directory under [d] replaced. *)

Definition override (sub : string -> fs) (d : string) (v : fs) : string -> fs :=
  fun x => if String.eqb x d then v else sub x.

(** The two sorted lists of names [scan_directory] loops over. *)

Definition folders_of (stat : string -> entry) (items : list string) :=
  sort (fst (classify stat items)).

Definition files_of (stat : string -> entry) (items : list string) :=
  sort (snd (classify stat items)).

(** The path the specification gives the file [f] found under the
    directories [loc]: the label, a slash, and the host's relative path
    with its backslashes replaced. *)

Definition relative_path (os : flavour) (loc : list string) (f : string) : string :=
  String.concat (sep os) (loc ++ [f]).

Definition web_path (os : flavour) (loc : list string) (f : string) : string :=
  "old-articles/" ++ replace_backslash (relative_path os loc f).

(** Whether a name holds a backslash. *)

Fixpoint has_backslash (s : string) : bool :=
  match s with
  | EmptyString => false
  | String a s' => Ascii.eqb a backslash || has_backslash s'
  end.

(** The entries the classification keeps. *)


(** ** Example directories *)

(** What [os.listdir] does with a path that is a regular file. *)

Definition not_a_directory : fs :=
  ListError (OtherException "[Errno 20] Not a directory").

Definition empty_directory : fs :=
  Listing [] (fun _ => Plain TSpecial) (fun _ => not_a_directory).

(** The example of the specification: a folder [News] holding
    [story.txt], next to [index.html]. *)

Definition site_stat (item : string) : entry :=
  if String.eqb item "News" then Plain TDir else Plain TReg.

Definition site_sub (item : string) : fs :=
  if String.eqb item "News" then
    Listing ["story.txt"] (fun _ => Plain TReg) (fun _ => not_a_directory)
  else not_a_directory.

Definition site_root : fs := Listing ["index.html"; "News"] site_stat site_sub.

(** The same names listed in another order, with a socket next to them. *)

Definition site_stat' (item : string) : entry :=
  if String.eqb item "News" then Plain TDir
  else if String.eqb item "ctl.sock" then Plain TSpecial
  else Plain TReg.

Definition site_root' : fs :=
  Listing ["News"; "ctl.sock"; "index.html"] site_stat' site_sub.

(** Files [b.txt] and [A.txt], folders [Zeta] and [alpha]. *)

Definition mixed_case_stat (item : string) : entry :=
  if String.eqb item "Zeta" then Plain TDir
  else if String.eqb item "alpha" then Plain TDir
  else Plain TReg.

Definition mixed_case_root : fs :=
  Listing ["b.txt"; "A.txt"; "Zeta"; "alpha"] mixed_case_stat
    (fun _ => empty_directory).

(** A symbolic link to a regular file, a link whose target is gone, a
    named pipe and a folder nobody may list. *)




(** A world where everything asked for exists and every write succeeds,
    and one where the disk is full. *)

Definition fine_world (d : fs) : world :=
  {| path_exists := fun _ => true;
     path_isdir := fun _ => true;
     directory := fun _ => d;
     disk := fun _ => Written |}.

Definition full_disk_world (d : fs) : world :=
  {| path_exists := fun _ => true;
     path_isdir := fun _ => true;
     directory := fun _ => d;
     disk := fun _ => DumpFails (OtherException "[Errno 28] No space left on device") |}.

Definition default_answers (folder : string) : answers :=
  {| folder_path := folder; choice := "1"; custom_location := EmptyString |}.

(** An entry that is itself neither a directory nor a regular file: a
    special file, or a symbolic link whatever it points to. *)


(** ** Induction on trees *)

Section NodeInduction.
Variable P : node -> Prop.
Hypothesis P_file : forall name path, P (File name path).
Hypothesis P_folder :
  forall name children, Forall P children -> P (Folder name children).

Fixpoint node_induction (n : node) : P n :=
  match n with
  | File name path => P_file name path
  | Folder name children =>
      P_folder name
        ((fix all (l : list node) : Forall P l :=
            match l with
            | [] => Forall_nil P
            | c :: l' => Forall_cons c (node_induction c) (all l')
            end) children)
  end.
End NodeInduction.

(** ** Further vocabulary *)

(** The regular files a scan can reach: those listed as files in [d] and
    in every directory that is listed below it and can itself be listed. *)


(** The directories a scan reaches and cannot list. *)

Fixpoint count_unlistable (d : fs) : nat :=
  match d with
  | ListError _ => 1
  | Listing items stat sub =>
      list_sum (map (fun item => count_unlistable (sub item))
                    (filter (fun item => isdir (stat item)) items))
  end.

(** Every listing the scan reads holds each name once, as the listing of a
    real directory does. *)

Inductive distinct_listings : fs -> Prop :=
| distinct_unlisted e : distinct_listings (ListError e)
| distinct_listing items stat sub :
    NoDup items ->
    (forall d, In d items -> isdir (stat d) = true -> distinct_listings (sub d)) ->
    distinct_listings (Listing items stat sub).

Definition is_warning (ev : event) : bool :=
  match ev with
  | Print (WarnPermission _) | Print (WarnError _ _) => true
  | _ => false
  end.

Definition is_print (ev : event) : bool :=
  match ev with
  | Print _ => true
  | _ => false
  end.

Definition is_open (ev : event) : bool :=
  match ev with
  | Open _ => true
  | _ => false
  end.

(** The event touches no file but [p]. *)

Definition writes_only_to (p : fspath) (ev : event) : Prop :=
  match ev with
  | Print _ => True
  | Open q => q = p
  | Dump q _ => q = p
  end.

(** The last component of a path: the last name joined on, or the
    supplied text when nothing was joined. *)


(** ** Calls that raise on their own account

    [scan_directory] above is the run in which no call of the [try] block
    other than [os.listdir] raises.  The block also calls [os.path.join],
    [os.path.isdir], [os.path.isfile], [os.path.relpath] and
    [scan_directory] itself; all of these run Python code and can raise (a
    [RecursionError] deep in a tree, for one), and [except Exception]
    catches that as well.  Below, the same block is run by an interpreter
    that says which of these calls raise, by the directory being scanned
    and the call. *)

Inductive pycall :=
| JoinItem (item : string)
| Isdir (item : string)
| Isfile (item : string)
| JoinFolder (folder : string)
| Enter (folder : string)
| JoinFile (file : string)
| Relpath (file : string).

Definition interpreter : Type := fspath -> pycall -> option exn.

(** The interpreter under which none of them raises. *)


Definition attempt (py : interpreter) (path : fspath) (c : pycall) : M unit :=
  match py path c with
  | Some e => raise e
  | None => ret tt
  end.

(** The loop that separates folders and files, with its three calls per
    item; [os.path.isfile] is reached only when [os.path.isdir] said no. *)

Fixpoint classify_in (py : interpreter) (stat : string -> entry) (path : fspath)
    (items folders files : list string) : M (list string * list string) :=
  match items with
  | [] => ret (folders, files)
  | item :: rest =>
      attempt py path (JoinItem item) ;;;
      attempt py path (Isdir item) ;;;
      if isdir (stat item) then
        classify_in py stat path rest (folders ++ [item]) files
      else
        attempt py path (Isfile item) ;;;
        if isfile (stat item) then
          classify_in py stat path rest folders (files ++ [item])
        else classify_in py stat path rest folders files
  end.

(** The [try] block once [os.listdir] has returned [items]; [nested folder]
    is what the call [scan_directory(folder_path, folder)] returns once it
    has been entered. *)

Definition listing_block (py : interpreter) (os : flavour)
    (root_folder_path path : fspath) (items : list string)
    (stat : string -> entry) (nested : string -> node * list event) : M unit :=
  found <- classify_in py stat path items [] [] ;;
  let folders := sort (fst found) in
  let files := sort (snd found) in
  for_each folders (fun folder =>
    attempt py path (JoinFolder folder) ;;;
    attempt py path (Enter folder) ;;;
    child <- call (nested folder) ;;
    append_child child) ;;;
  for_each files (fun file =>
    attempt py path (JoinFile file) ;;;
    attempt py path (Relpath file) ;;;
    append_child (file_node os root_folder_path path file)).

Fixpoint scan_directory_in (py : interpreter) (os : flavour)
    (root_folder_path : fspath) (d : fs) (path : fspath) (name : string)
    {struct d} : node * list event :=
  try_except name path
    match d with
    | ListError e => raise e
    | Listing items stat sub =>
        listing_block py os root_folder_path path items stat
          (fun folder =>
             scan_directory_in py os root_folder_path (sub folder)
               (join path folder) folder)
    end.

(** The [try] block of the call that scans [d] at [path]. *)


Definition start : frame := {| result_children := []; console := [] |}.

(** The frame after more children were appended and more was printed. *)

Definition extend (s : frame) (cs : list node) (out : list event) : frame :=
  {| result_children := result_children s ++ cs; console := console s ++ out |}.



(** A folder [News] with two files, and an interpreter under which
    [os.path.relpath] raises for the second of them. *)





(** A file whose name holds a backslash, as a POSIX host allows, next to
    a folder [a] holding a file [b]. *)




(** * Properties *)

(** ** The order on names *)

Module StrOrder.

Lemma ascii_compare_refl (a : ascii) : Ascii.compare a a = Eq.
Proof. unfold Ascii.compare. apply N.compare_refl. Qed.

Lemma compare_refl (s : string) : String.compare s s = Eq.
Proof.
  induction s as [|a s IH]; simpl; [reflexivity|].
  now rewrite ascii_compare_refl.
Qed.

Lemma leb_refl (s : string) : String.leb s s = true.
Proof. unfold String.leb. now rewrite compare_refl. Qed.

Lemma ascii_compare_lt_trans (a b c : ascii) :
  Ascii.compare a b = Lt -> Ascii.compare b c = Lt -> Ascii.compare a c = Lt.
Proof.
  unfold Ascii.compare. rewrite !N.compare_lt_iff. apply N.lt_trans.
Qed.

Lemma compare_lt_trans (s1 : string) :
  forall s2 s3, String.compare s1 s2 = Lt -> String.compare s2 s3 = Lt ->
                String.compare s1 s3 = Lt.
Proof.
  induction s1 as [|a s1 IH]; intros [|b s2] [|c s3]; simpl;
    try discriminate; try reflexivity.
  destruct (Ascii.compare a b) eqn:Hab; try discriminate;
    destruct (Ascii.compare b c) eqn:Hbc; try discriminate; intros H1 H2.
  - apply Ascii.compare_eq_iff in Hab, Hbc. subst.
    rewrite ascii_compare_refl. eauto.
  - apply Ascii.compare_eq_iff in Hab. subst. now rewrite Hbc.
  - apply Ascii.compare_eq_iff in Hbc. subst. now rewrite Hab.
  - now rewrite (ascii_compare_lt_trans _ _ _ Hab Hbc).
Qed.

Lemma leb_trans (s1 s2 s3 : string) :
  String.leb s1 s2 = true -> String.leb s2 s3 = true -> String.leb s1 s3 = true.
Proof.
  unfold String.leb.
  destruct (String.compare s1 s2) eqn:H12; try discriminate;
    destruct (String.compare s2 s3) eqn:H23; try discriminate; intros _ _.
  - apply String.compare_eq_iff in H12, H23. subst. now rewrite compare_refl.
  - apply String.compare_eq_iff in H12. subst. now rewrite H23.
  - apply String.compare_eq_iff in H23. subst. now rewrite H12.
  - now rewrite (compare_lt_trans _ _ _ H12 H23).
Qed.

End StrOrder.

(** ** The loops of [scan_directory] *)

Lemma for_each_call_append (A : Type) (f : A -> node * list event) (l : list A) :
  forall s,
    for_each l (fun x => child <- call (f x) ;; append_child child) s =
    ({| result_children := result_children s ++ map (fun x => fst (f x)) l;
        console := console s ++ flat_map (fun x => snd (f x)) l |}, inr tt).
Proof.
  induction l as [|x l IH]; intros [cs out]; simpl.
  - unfold ret. now rewrite !app_nil_r.
  - unfold bind at 1. unfold bind at 1. unfold call, append_child. simpl.
    rewrite IH. simpl. now rewrite <- !app_assoc.
Qed.

Lemma for_each_append (A : Type) (g : A -> node) (l : list A) :
  forall s,
    for_each l (fun x => append_child (g x)) s =
    ({| result_children := result_children s ++ map g l;
        console := console s |}, inr tt).
Proof.
  induction l as [|x l IH]; intros [cs out]; simpl.
  - unfold ret. now rewrite app_nil_r.
  - unfold bind at 1. unfold append_child at 1. simpl.
    rewrite IH. simpl. now rewrite <- app_assoc.
Qed.

Lemma scan_directory_listing os root items stat sub path name :
  scan_directory os root (Listing items stat sub) path name =
  (Folder name
     (map (fun folder =>
             fst (scan_directory os root (sub folder) (join path folder) folder))
          (folders_of stat items)
      ++ map (file_node os root path) (files_of stat items)),
   flat_map (fun folder =>
               snd (scan_directory os root (sub folder) (join path folder) folder))
            (folders_of stat items)).
Proof.
  unfold folders_of, files_of. simpl.
  destruct (classify stat items) as [folders files]. simpl.
  unfold try_except, bind.
  rewrite (for_each_call_append
             (fun folder => scan_directory os root (sub folder) (join path folder) folder)).
  rewrite for_each_append. reflexivity.
Qed.

Lemma scan_directory_error os root e path name :
  scan_directory os root (ListError e) path name =
  (Folder name [], [Print (handler e path)]).
Proof. reflexivity. Qed.

(** ** [sort] *)

Lemma insert_perm x l : Permutation (insert x l) (x :: l).
Proof.
  induction l as [|y l IH]; simpl; [reflexivity|].
  destruct (String.leb x y); [reflexivity|].
  rewrite IH. apply perm_swap.
Qed.

Lemma sort_perm l : Permutation (sort l) l.
Proof.
  induction l as [|x l IH]; simpl; [constructor|].
  rewrite insert_perm. now constructor.
Qed.

Lemma In_sort x l : In x (sort l) <-> In x l.
Proof.
  split; apply Permutation_in; [|symmetry]; apply sort_perm.
Qed.

Lemma ascending_cons x l :
  ascending (x :: l) = true <->
  match l with [] => True | y :: _ => String.leb x y = true end
  /\ ascending l = true.
Proof.
  destruct l as [|y l]; simpl; [tauto|].
  now rewrite andb_true_iff.
Qed.

Lemma insert_ascending x l :
  ascending l = true -> ascending (insert x l) = true.
Proof.
  induction l as [|y l IH]; [reflexivity|].
  intros Hl. apply ascending_cons in Hl as [Hy Hl]. simpl.
  destruct (String.leb x y) eqn:Hxy.
  - apply ascending_cons. split; [assumption|].
    apply ascending_cons. now split.
  - assert (Hyx : String.leb y x = true)
      by (destruct (String.leb_total x y); congruence).
    specialize (IH Hl). apply ascending_cons. split; [|assumption].
    destruct l as [|z l]; simpl; [assumption|].
    now destruct (String.leb x z).
Qed.

Lemma sort_ascending l : ascending (sort l) = true.
Proof.
  induction l as [|x l IH]; [reflexivity|]. simpl. now apply insert_ascending.
Qed.

Lemma ascending_head_least x l :
  ascending (x :: l) = true -> forall y, In y l -> String.leb x y = true.
Proof.
  revert x. induction l as [|z l IH]; intros x H y Hy; [contradiction|].
  apply ascending_cons in H as [Hxz Hl].
  destruct Hy as [->|Hy]; [assumption|].
  apply StrOrder.leb_trans with z; [assumption|]. now apply IH.
Qed.

Lemma ascending_perm_eq l1 :
  forall l2, ascending l1 = true -> ascending l2 = true ->
             Permutation l1 l2 -> l1 = l2.
Proof.
  induction l1 as [|x l1 IH]; intros l2 H1 H2 HP.
  - apply Permutation_nil in HP. now subst.
  - destruct l2 as [|y l2].
    + symmetry in HP. now apply Permutation_nil in HP.
    + assert (x = y) as ->.
      { assert (Hx : In x (y :: l2))
          by (apply (Permutation_in _ HP); now left).
        assert (Hy : In y (x :: l1))
          by (apply (Permutation_in _ (Permutation_sym HP)); now left).
        destruct Hx as [Hx|Hx]; [now subst|].
        destruct Hy as [Hy|Hy]; [now subst|].
        apply String.leb_antisym.
        - now apply ascending_head_least with (l := l1).
        - now apply ascending_head_least with (l := l2). }
      f_equal. apply IH.
      * now apply ascending_cons in H1.
      * now apply ascending_cons in H2.
      * now apply Permutation_cons_inv in HP.
Qed.

Lemma sort_perm_eq l1 l2 : Permutation l1 l2 -> sort l1 = sort l2.
Proof.
  intros HP. apply ascending_perm_eq; try apply sort_ascending.
  rewrite !sort_perm. exact HP.
Qed.

(** ** The classification loop *)

Lemma classify_fst stat items :
  fst (classify stat items) = filter (fun item => isdir (stat item)) items.
Proof.
  induction items as [|item items IH]; [reflexivity|]. simpl.
  destruct (classify stat items) as [folders files]. simpl in IH.
  destruct (isdir (stat item)); simpl; [now rewrite IH|].
  now destruct (isfile (stat item)).
Qed.

Lemma classify_snd stat items :
  snd (classify stat items) =
  filter (fun item => negb (isdir (stat item)) && isfile (stat item)) items.
Proof.
  induction items as [|item items IH]; [reflexivity|]. simpl.
  destruct (classify stat items) as [folders files]. simpl in IH.
  destruct (isdir (stat item)); simpl; [assumption|].
  destruct (isfile (stat item)); simpl; [now rewrite IH | assumption].
Qed.

Lemma In_folders_of stat items x :
  In x (folders_of stat items) <-> In x items /\ isdir (stat x) = true.
Proof.
  unfold folders_of. now rewrite In_sort, classify_fst, filter_In.
Qed.

Lemma In_files_of stat items x :
  In x (files_of stat items) <->
  In x items /\ isdir (stat x) = false /\ isfile (stat x) = true.
Proof.
  unfold files_of. rewrite In_sort, classify_snd, filter_In.
  rewrite andb_true_iff, negb_true_iff. tauto.
Qed.

Lemma isdir_isfile_exclusive e : isdir e = true -> isfile e = false.
Proof.
  unfold isdir, isfile. destruct (resolve e) as [[]|]; congruence.
Qed.

(** ** Shape of what [scan_directory] returns *)

Lemma scan_directory_folder os root d path name :
  exists children, fst (scan_directory os root d path name) = Folder name children.
Proof.
  destruct d as [e|items stat sub].
  - now exists [].
  - rewrite scan_directory_listing. simpl. eauto.
Qed.

Lemma scan_directory_name os root d path name :
  node_name (fst (scan_directory os root d path name)) = name.
Proof.
  destruct (scan_directory_folder os root d path name) as [cs ->]. reflexivity.
Qed.

Lemma scan_directory_is_folder os root d path name :
  is_folder (fst (scan_directory os root d path name)) = true.
Proof.
  destruct (scan_directory_folder os root d path name) as [cs ->]. reflexivity.
Qed.

Lemma is_file_not_folder n : is_file n = negb (is_folder n).
Proof. now destruct n. Qed.

(** ** Folders first, names ascending *)

Lemma all_files_folders_first fi :
  forallb is_file fi = true -> folders_first fi = true.
Proof.
  destruct fi as [|c fi]; [reflexivity|]. simpl.
  rewrite andb_true_iff. now intros [-> H].
Qed.

Lemma folders_first_app fl fi :
  forallb is_folder fl = true -> forallb is_file fi = true ->
  folders_first (fl ++ fi) = true.
Proof.
  intros Hfl Hfi. induction fl as [|c fl IH]; simpl.
  - now apply all_files_folders_first.
  - simpl in Hfl. apply andb_true_iff in Hfl as [Hc Hfl].
    rewrite is_file_not_folder, Hc. simpl. now apply IH.
Qed.

Lemma filter_groups fl fi :
  forallb is_folder fl = true -> forallb is_file fi = true ->
  filter is_folder (fl ++ fi) = fl /\ filter is_file (fl ++ fi) = fi.
Proof.
  intros Hfl Hfi. rewrite !filter_app.
  rewrite forallb_forall in Hfl, Hfi.
  assert (E1 : filter is_folder fl = fl).
  { clear Hfi. induction fl as [|c fl IH]; [reflexivity|]. simpl.
    rewrite (Hfl c (or_introl eq_refl)). f_equal.
    apply IH. intros x Hx. apply Hfl. now right. }
  assert (E2 : filter is_file fi = fi).
  { clear Hfl E1. induction fi as [|c fi IH]; [reflexivity|]. simpl.
    rewrite (Hfi c (or_introl eq_refl)). f_equal.
    apply IH. intros x Hx. apply Hfi. now right. }
  assert (E3 : filter is_folder fi = []).
  { clear E2. induction fi as [|c fi IH]; [reflexivity|]. simpl.
    pose proof (Hfi c (or_introl eq_refl)) as Hc.
    rewrite is_file_not_folder, negb_true_iff in Hc. rewrite Hc.
    apply IH. intros x Hx. apply Hfi. now right. }
  assert (E4 : filter is_file fl = []).
  { clear E1. induction fl as [|c fl IH]; [reflexivity|]. simpl.
    rewrite is_file_not_folder, (Hfl c (or_introl eq_refl)). simpl.
    apply IH. intros x Hx. apply Hfl. now right. }
  rewrite E1, E2, E3, E4, app_nil_r. now split.
Qed.

(** What the boolean test says, as a decomposition of the list. *)

Lemma folders_first_split cs :
  folders_first cs = true -> cs = filter is_folder cs ++ filter is_file cs.
Proof.
  induction cs as [|c cs IH]; [reflexivity|]. simpl.
  rewrite (is_file_not_folder c).
  destruct (is_folder c) eqn:Hc; simpl; intros H.
  - f_equal. now apply IH.
  - destruct (filter_groups [] cs eq_refl H) as [E1 E2]. simpl in E1, E2.
    rewrite E1, E2. reflexivity.
Qed.

Lemma scan_directory_children_ordered os root items stat sub path name :
  ordered_children
    (node_children (fst (scan_directory os root (Listing items stat sub) path name)))
  = true.
Proof.
  rewrite scan_directory_listing. simpl.
  set (fl := map _ (folders_of stat items)).
  set (fi := map _ (files_of stat items)).
  assert (Hfl : forallb is_folder fl = true).
  { apply forallb_forall. intros n Hn. apply in_map_iff in Hn as [f [<- _]].
    apply scan_directory_is_folder. }
  assert (Hfi : forallb is_file fi = true).
  { apply forallb_forall. intros n Hn. now apply in_map_iff in Hn as [f [<- _]]. }
  unfold ordered_children.
  destruct (filter_groups fl fi Hfl Hfi) as [-> ->].
  rewrite (folders_first_app fl fi Hfl Hfi). simpl.
  assert (E1 : map node_name fl = folders_of stat items).
  { unfold fl. rewrite map_map. rewrite <- (map_id (folders_of stat items)) at 2.
    apply map_ext. intros f. apply scan_directory_name. }
  assert (E2 : map node_name fi = files_of stat items).
  { unfold fi. rewrite map_map. rewrite <- (map_id (files_of stat items)) at 2.
    now apply map_ext. }
  rewrite E1, E2. unfold folders_of, files_of. now rewrite !sort_ascending.
Qed.

Lemma scan_directory_well_ordered os root d :
  forall path name, well_ordered (fst (scan_directory os root d path name)) = true.
Proof.
  induction d as [e|items stat sub IH]; intros path name; [reflexivity|].
  pose proof (scan_directory_children_ordered os root items stat sub path name) as H.
  rewrite scan_directory_listing in *. simpl in *. rewrite H. simpl.
  apply forallb_forall. intros n Hn. apply in_app_or in Hn as [Hn|Hn];
    apply in_map_iff in Hn as [f [<- _]]; [apply IH | reflexivity].
Qed.

Lemma well_ordered_subnodes n :
  well_ordered n = true ->
  Forall (fun m => ordered_children (node_children m) = true) (subnodes n).
Proof.
  induction n as [name path|name children IH] using node_induction; intros H.
  - repeat constructor.
  - simpl in H. apply andb_true_iff in H as [Ho Hall].
    simpl. constructor; [assumption|].
    rewrite forallb_forall in Hall. rewrite Forall_forall in IH.
    apply Forall_forall. intros m Hm. apply in_flat_map in Hm as [c [Hc Hm]].
    specialize (IH c Hc (Hall c Hc)). rewrite Forall_forall in IH. now apply IH.
Qed.

(** ** Counting *)

Lemma fold_left_count (l : list node) : forall acc,
  fold_left (fun count child => count + count_files child) l acc =
  acc + list_sum (map count_files l).
Proof.
  induction l as [|c l IH]; intros acc; simpl; [lia|]. rewrite IH. lia.
Qed.

Lemma length_filter_flat_map (A B : Type) (p : B -> bool) (f : A -> list B) l :
  List.length (filter p (flat_map f l)) =
  list_sum (map (fun x => List.length (filter p (f x))) l).
Proof.
  induction l as [|x l IH]; [reflexivity|]. simpl.
  now rewrite filter_app, length_app, IH.
Qed.

(** ** Paths *)

Lemma relpath_from_root os p root :
  rel root = [] -> rel p <> [] ->
  relpath os p root = String.concat (sep os) (rel p).
Proof.
  unfold relpath. intros -> Hp. simpl.
  destruct (rel p); [contradiction | reflexivity].
Qed.

Lemma file_node_web_path os root path file :
  rel root = [] ->
  file_node os root path file = File file (web_path os (rel path) file).
Proof.
  intros Hroot. unfold file_node, web_path, relative_path.
  rewrite relpath_from_root; [reflexivity | assumption |].
  simpl. now destruct (rel path).
Qed.

Lemma replace_backslash_app s1 s2 :
  replace_backslash (s1 ++ s2) = (replace_backslash s1 ++ replace_backslash s2)%string.
Proof.
  induction s1 as [|a s1 IH]; simpl; [reflexivity|]. now rewrite IH.
Qed.

Lemma replace_backslash_sep os : replace_backslash (sep os) = "/".
Proof. now destruct os. Qed.

Lemma replace_backslash_concat os l :
  replace_backslash (String.concat (sep os) l) =
  String.concat "/" (map replace_backslash l).
Proof.
  induction l as [|x l IH]; [reflexivity|].
  destruct l as [|y l]; [reflexivity|].
  change (String.concat (sep os) (x :: y :: l))
    with (x ++ sep os ++ String.concat (sep os) (y :: l))%string.
  rewrite !replace_backslash_app, replace_backslash_sep, IH. reflexivity.
Qed.

(** Names without a backslash, as all names are on a host whose separator
    it is, come out joined by forward slashes. *)

Lemma replace_backslash_clean s :
  has_backslash s = false -> replace_backslash s = s.
Proof.
  induction s as [|a s IH]; simpl; [reflexivity|].
  rewrite orb_false_iff. intros [-> H]. now rewrite IH.
Qed.

Lemma web_path_posix_style os loc f :
  forallb (fun name => negb (has_backslash name)) (loc ++ [f]) = true ->
  web_path os loc f = ("old-articles/" ++ String.concat "/" (loc ++ [f]))%string.
Proof.
  intros H. unfold web_path, relative_path. rewrite replace_backslash_concat.
  do 2 f_equal. rewrite <- (map_id (loc ++ [f])) at 2.
  apply map_ext_in. intros name Hname. apply replace_backslash_clean.
  rewrite forallb_forall in H. specialize (H name Hname).
  now rewrite negb_true_iff in H.
Qed.

(** ** Where the file nodes are and what they hold *)

Lemma files_at_scan_sound os root d :
  rel root = [] ->
  forall path name loc f p,
    In (loc, f, p) (files_at (rel path) (fst (scan_directory os root d path name))) ->
    p = web_path os loc f.
Proof.
  intros Hroot.
  induction d as [e|items stat sub IH]; intros path name loc f p H.
  - contradiction.
  - rewrite scan_directory_listing in H. simpl in H.
    apply in_flat_map in H as [child [Hchild H]].
    apply in_app_or in Hchild as [Hchild|Hchild];
      apply in_map_iff in Hchild as [x [<- _]].
    + destruct (scan_directory_folder os root (sub x) (join path x) x) as [cs E].
      rewrite E in H. rewrite <- E in H.
      apply (IH x (join path x) x). exact H.
    + rewrite file_node_web_path in H by assumption.
      destruct H as [H|[]]. now inversion H.
Qed.

Lemma files_at_scan_complete os root d loc f :
  rel root = [] -> discovered d loc f ->
  forall path name,
    In (rel path ++ loc, f, web_path os (rel path ++ loc) f)
       (files_at (rel path) (fst (scan_directory os root d path name))).
Proof.
  intros Hroot Hd.
  induction Hd as [items stat sub f Hin Hdir Hfile
                  |items stat sub d loc f Hin Hdir Hd IH]; intros path name;
    rewrite scan_directory_listing; simpl; apply in_flat_map.
  - exists (file_node os root path f). split.
    + apply in_or_app. right. apply in_map. now apply In_files_of.
    + rewrite file_node_web_path by assumption. rewrite app_nil_r. now left.
  - exists (fst (scan_directory os root (sub d) (join path d) d)). split.
    + apply in_or_app. left.
      apply (in_map (fun folder =>
        fst (scan_directory os root (sub folder) (join path folder) folder))).
      now apply In_folders_of.
    + destruct (scan_directory_folder os root (sub d) (join path d) d) as [cs E].
      rewrite E. rewrite <- E.
      specialize (IH (join path d) d). simpl in IH.
      now rewrite <- app_assoc in IH.
Qed.

(** ** One directory replaced by another *)

Lemma scan_directory_override os root items stat sub path name d v :
  fst (scan_directory os root (sub d) (join path d) d) =
  fst (scan_directory os root v (join path d) d) ->
  fst (scan_directory os root (Listing items stat sub) path name) =
  fst (scan_directory os root (Listing items stat (override sub d v)) path name).
Proof.
  intros H. rewrite !scan_directory_listing. simpl. do 2 f_equal.
  apply map_ext. intros folder. unfold override.
  destruct (String.eqb_spec folder d) as [->|_]; [exact H | reflexivity].
Qed.

(** ** Entries that are neither *)


Lemma scan_directory_child_names os root items stat sub path name :
  map node_name
      (node_children (fst (scan_directory os root (Listing items stat sub) path name)))
  = folders_of stat items ++ files_of stat items.
Proof.
  rewrite scan_directory_listing. simpl. rewrite map_app, !map_map. f_equal.
  - rewrite <- (map_id (folders_of stat items)) at 2.
    apply map_ext. intros f. apply scan_directory_name.
  - rewrite <- (map_id (files_of stat items)) at 2. now apply map_ext.
Qed.

(** ** The tree does not depend on where the directory lives *)

Lemma file_node_rel os root1 root2 path1 path2 file :
  rel root1 = rel root2 -> rel path1 = rel path2 ->
  file_node os root1 path1 file = file_node os root2 path2 file.
Proof.
  intros Hr Hp. unfold file_node, relpath, join. simpl. now rewrite Hr, Hp.
Qed.

Lemma scan_directory_same_structure os root1 root2 d1 d2 :
  rel root1 = rel root2 -> same_structure d1 d2 ->
  forall path1 path2 name,
    rel path1 = rel path2 ->
    fst (scan_directory os root1 d1 path1 name) =
    fst (scan_directory os root2 d2 path2 name).
Proof.
  intros Hroot Hs.
  induction Hs as [items1 stat1 sub1 items2 stat2 sub2 Hfo Hfi Hsub IH|e1 e2];
    intros path1 path2 name Hpath; [|reflexivity].
  rewrite !scan_directory_listing. simpl. unfold folders_of, files_of.
  rewrite <- (sort_perm_eq Hfo), <- (sort_perm_eq Hfi). do 2 f_equal.
  - apply map_ext_in. intros folder Hfolder. rewrite In_sort in Hfolder.
    apply IH; [assumption|]. simpl. now rewrite Hpath.
  - apply map_ext. intros file. now apply file_node_rel.
Qed.

(** ** The whole run *)

Lemma generate_archive_index_tree os root d :
  fst (generate_archive_index os root d) =
  fst (scan_directory os (root_of root) d (root_of root) "old-articles").
Proof.
  unfold generate_archive_index.
  now destruct (scan_directory os (root_of root) d (root_of root) "old-articles").
Qed.

Lemma main_completes os w a :
  path_exists w (folder_path a) = true ->
  path_isdir w (folder_path a) = true ->
  disk w (output_path_of a) = Written ->
  snd (main os w a) = inr tt /\
  In (Dump (output_path_of a)
        (to_json (fst (generate_archive_index os (folder_path a)
                         (directory w (folder_path a))))))
     (fst (main os w a)).
Proof.
  intros He Hd Hw. unfold main. rewrite He, Hd. simpl.
  destruct (generate_archive_index os (folder_path a) (directory w (folder_path a)))
    as [structure out].
  unfold save_archive_index. rewrite Hw. simpl. split; [reflexivity|].
  apply in_or_app. right. simpl. auto.
Qed.

(** The example of the specification, on both hosts. *)

Example site_index os :
  to_json (fst (generate_archive_index os "Old Articles" site_root)) =
  JObject
    [("name", JString "old-articles"); ("type", JString "folder");
     ("children",
      JArray
        [JObject
           [("name", JString "News"); ("type", JString "folder");
            ("children",
             JArray
               [JObject [("name", JString "story.txt"); ("type", JString "file");
                         ("path", JString "old-articles/News/story.txt")]])];
         JObject [("name", JString "index.html"); ("type", JString "file");
                  ("path", JString "old-articles/index.html")]])].
Proof. now destruct os. Qed.

Lemma filter_perm (A : Type) (f : A -> bool) (l l' : list A) :
  Permutation l l' -> Permutation (filter f l) (filter f l').
Proof.
  induction 1 as [|x l l' _ IH|x y l|l l' l'' _ IH1 _ IH2]; simpl.
  - constructor.
  - destruct (f x); [now constructor | assumption].
  - destruct (f x), (f y); try reflexivity. apply perm_swap.
  - now transitivity (filter f l').
Qed.

(** ** Runs in which calls raise *)

Lemma bind_eq (A B : Type) (m : M A) (k : A -> M B) s :
  bind m k s =
  match m s with
  | (s', inl e) => (s', inl e)
  | (s', inr a) => k a s'
  end.
Proof. reflexivity. Qed.

Lemma bind_attempt (A : Type) py path c (k : M A) s :
  (attempt py path c ;;; k) s =
  match py path c with
  | Some e => (s, inl e)
  | None => k s
  end.
Proof. unfold bind, attempt. now destruct (py path c). Qed.

Lemma extend_nil s : extend s [] [] = s.
Proof. destruct s. unfold extend. simpl. now rewrite !app_nil_r. Qed.

Lemma extend_extend s cs out cs' out' :
  extend (extend s cs out) cs' out' = extend s (cs ++ cs') (out ++ out').
Proof. unfold extend. simpl. now rewrite !app_assoc. Qed.


(** A loop whose step either appends one child and prints, or raises
    leaving the frame as it was, ends with the children of a prefix of
    the list appended; when no step raises, of the whole list. *)

Section Loops.
  Variable A : Type.
  Variable body : A -> M unit.
  Variable child_of : A -> node.
  Variable out_of : A -> list event.

Lemma loop_prefix :
  (forall x s, body x s = (extend s [child_of x] (out_of x), inr tt)
               \/ exists e, body x s = (s, inl e)) ->
  forall l s,
  exists k,
    k <= List.length l /\
    ((for_each l body s =
        (extend s (map child_of (firstn k l)) (flat_map out_of (firstn k l)), inr tt)
      /\ k = List.length l)
     \/ exists e,
         for_each l body s =
         (extend s (map child_of (firstn k l)) (flat_map out_of (firstn k l)), inl e)).
Proof.
  intros Hstep. induction l as [|x l IH]; intros s.
  - exists 0. split; [reflexivity|]. left. simpl. rewrite extend_nil. now split.
  - simpl for_each. rewrite bind_eq.
    destruct (Hstep x s) as [H|[e H]]; rewrite H.
    + destruct (IH (extend s [child_of x] (out_of x))) as [k [Hk [[H1 Hl]|[e H1]]]];
        exists (S k); (split; [simpl; lia|]); rewrite H1, extend_extend; simpl.
      * left. split; [reflexivity | now rewrite Hl].
      * right. now exists e.
    + exists 0. split; [simpl; lia|]. right. exists e. simpl. now rewrite extend_nil.
Qed.

Lemma loop_total :
  (forall x s, body x s = (extend s [child_of x] (out_of x), inr tt)) ->
  forall l s,
    for_each l body s = (extend s (map child_of l) (flat_map out_of l), inr tt).
Proof.
  intros Hstep. induction l as [|x l IH]; intros s.
  - simpl. now rewrite extend_nil.
  - simpl for_each. rewrite bind_eq, Hstep, IH, extend_extend. reflexivity.
Qed.
End Loops.

Lemma flat_map_nothing (A B : Type) (l : list A) :
  flat_map (fun _ : A => @nil B) l = [].
Proof. induction l as [|x l IH]; [reflexivity | exact IH]. Qed.

Lemma folder_step py path (nested : string -> node * list event) folder s :
  (attempt py path (JoinFolder folder) ;;;
   attempt py path (Enter folder) ;;;
   child <- call (nested folder) ;; append_child child) s =
  match py path (JoinFolder folder), py path (Enter folder) with
  | Some e, _ => (s, inl e)
  | None, Some e => (s, inl e)
  | None, None => (extend s [fst (nested folder)] (snd (nested folder)), inr tt)
  end.
Proof.
  rewrite bind_attempt. destruct (py path (JoinFolder folder)); [reflexivity|].
  rewrite bind_attempt. destruct (py path (Enter folder)); reflexivity.
Qed.

Lemma file_step py os root path file s :
  (attempt py path (JoinFile file) ;;;
   attempt py path (Relpath file) ;;;
   append_child (file_node os root path file)) s =
  match py path (JoinFile file), py path (Relpath file) with
  | Some e, _ => (s, inl e)
  | None, Some e => (s, inl e)
  | None, None => (extend s [file_node os root path file] [], inr tt)
  end.
Proof.
  rewrite bind_attempt. destruct (py path (JoinFile file)); [reflexivity|].
  rewrite bind_attempt. destruct (py path (Relpath file)); [reflexivity|].
  unfold append_child, extend. now rewrite app_nil_r.
Qed.

Lemma classify_in_cases py stat path items :
  forall folders files s,
    classify_in py stat path items folders files s =
      (s, inr (folders ++ fst (classify stat items),
               files ++ snd (classify stat items)))
    \/ exists e, classify_in py stat path items folders files s = (s, inl e).
Proof.
  induction items as [|item items IH]; intros folders files s.
  - left. simpl. unfold ret. now rewrite !app_nil_r.
  - rewrite classify_fst, classify_snd. simpl classify_in. simpl filter.
    rewrite bind_attempt. destruct (py path (JoinItem item)); [right; eauto|].
    rewrite bind_attempt. destruct (py path (Isdir item)); [right; eauto|].
    destruct (isdir (stat item)); simpl.
    + destruct (IH (folders ++ [item]) files s) as [H|H]; [left | now right].
      rewrite H, classify_fst, classify_snd, <- app_assoc. reflexivity.
    + rewrite bind_attempt. destruct (py path (Isfile item)); [right; eauto|].
      destruct (isfile (stat item)).
      * destruct (IH folders (files ++ [item]) s) as [H|H]; [left | now right].
        rewrite H, classify_fst, classify_snd, <- app_assoc. reflexivity.
      * destruct (IH folders files s) as [H|H]; [left | now right].
        now rewrite H, classify_fst, classify_snd.
Qed.

Lemma classify_in_total py stat path items :
  (forall c, py path c = None) ->
  forall folders files s,
    classify_in py stat path items folders files s =
    (s, inr (folders ++ fst (classify stat items),
             files ++ snd (classify stat items))).
Proof.
  intros Hq folders files s.
  destruct (classify_in_cases py stat path items folders files s) as [H|[e H]];
    [exact H|].
  exfalso. revert folders files s e H.
  induction items as [|item items IH]; intros folders files s e H.
  - discriminate H.
  - simpl in H. rewrite bind_attempt, Hq, bind_attempt, Hq in H.
    destruct (isdir (stat item)); [now apply IH in H|].
    rewrite bind_attempt, Hq in H.
    destruct (isfile (stat item)); now apply IH in H.
Qed.




(** What a call returns for a directory that lists: the children of a
    prefix of the sorted folders and files, what the nested calls for
    those folders printed, and one warning if the block raised. *)

Lemma scan_directory_in_listing py os root items stat sub path name :
  exists k w,
    scan_directory_in py os root (Listing items stat sub) path name =
    (Folder name
       (firstn k
          (map (fun f => fst (scan_directory_in py os root (sub f) (join path f) f))
               (folders_of stat items)
           ++ map (file_node os root path) (files_of stat items))),
     flat_map (fun f => snd (scan_directory_in py os root (sub f) (join path f) f))
              (firstn k (folders_of stat items)) ++ w)
    /\ (w = [] \/ exists e, w = [Print (handler e path)]).
Proof.
  set (nested := fun f => scan_directory_in py os root (sub f) (join path f) f).
  change (scan_directory_in py os root (Listing items stat sub) path name)
    with (try_except name path
            (listing_block py os root path items stat nested)).
  unfold try_except, listing_block. rewrite bind_eq.
  destruct (classify_in_cases py stat path items [] []
              {| result_children := []; console := [] |}) as [H|[e H]]; rewrite H.
  - simpl fst. simpl snd. fold (folders_of stat items). fold (files_of stat items).
    rewrite bind_eq.
    destruct (loop_prefix
                (fun folder =>
                   attempt py path (JoinFolder folder) ;;;
                   attempt py path (Enter folder) ;;;
                   child <- call (nested folder) ;; append_child child)
                (fun f => fst (nested f)) (fun f => snd (nested f)))
      with (l := folders_of stat items)
           (s := {| result_children := []; console := [] |})
      as [k [Hk [[H1 Hl]|[e H1]]]].
    { intros x s. rewrite folder_step.
      destruct (py path (JoinFolder x)); [right; eauto|].
      destruct (py path (Enter x)); [right; eauto | now left]. }
    + rewrite H1.
      destruct (loop_prefix
                  (fun file =>
                     attempt py path (JoinFile file) ;;;
                     attempt py path (Relpath file) ;;;
                     append_child (file_node os root path file))
                  (file_node os root path) (fun _ => []))
        with (l := files_of stat items)
             (s := extend {| result_children := []; console := [] |}
                     (map (fun f => fst (nested f)) (firstn k (folders_of stat items)))
                     (flat_map (fun f => snd (nested f))
                               (firstn k (folders_of stat items))))
        as [j [Hj H2]].
      { intros x s. rewrite file_step.
        destruct (py path (JoinFile x)); [right; eauto|].
        destruct (py path (Relpath x)); [right; eauto | now left]. }
      assert (Hall : firstn k (folders_of stat items) = folders_of stat items)
        by (rewrite Hl; apply firstn_all).
      assert (Hfirst :
                firstn (List.length (folders_of stat items) + j)
                  (map (fun f => fst (nested f)) (folders_of stat items)
                   ++ map (file_node os root path) (files_of stat items))
                = map (fun f => fst (nested f)) (folders_of stat items)
                  ++ map (file_node os root path) (firstn j (files_of stat items))).
      { rewrite <- (length_map (fun f => fst (nested f)) (folders_of stat items)) at 1.
        now rewrite firstn_app_2, firstn_map. }
      assert (Hcons :
                firstn (List.length (folders_of stat items) + j) (folders_of stat items)
                = folders_of stat items)
        by (apply firstn_all2; lia).
      rewrite Hall in *. rewrite flat_map_nothing in H2.
      destruct H2 as [[H2 _]|[e H2]]; rewrite H2;
        exists (List.length (folders_of stat items) + j);
        subst nested; cbv beta in *.
      * exists []. rewrite Hfirst, Hcons. unfold extend. simpl.
        rewrite !app_nil_r. split; [reflexivity | now left].
      * exists [Print (handler e path)]. rewrite Hfirst, Hcons. unfold extend. simpl.
        rewrite !app_nil_r. split; [reflexivity | right; now exists e].
    + rewrite H1. exists k, [Print (handler e path)]. unfold extend. simpl.
      subst nested. cbv beta in *.
      rewrite firstn_app, firstn_map, length_map.
      replace (k - List.length (folders_of stat items)) with 0 by lia.
      simpl. rewrite app_nil_r. split; [reflexivity | right; now exists e].
  - exists 0, [Print (handler e path)]. simpl. split; [reflexivity | right; now exists e].
Qed.

(** When the calls of the block itself do not raise, every entry has its
    child, whatever happens in the nested calls. *)

Lemma scan_directory_in_listing_total py os root items stat sub path name :
  (forall c, py path c = None) ->
  scan_directory_in py os root (Listing items stat sub) path name =
  (Folder name
     (map (fun f => fst (scan_directory_in py os root (sub f) (join path f) f))
          (folders_of stat items)
      ++ map (file_node os root path) (files_of stat items)),
   flat_map (fun f => snd (scan_directory_in py os root (sub f) (join path f) f))
            (folders_of stat items)).
Proof.
  intros Hq.
  set (nested := fun f => scan_directory_in py os root (sub f) (join path f) f).
  change (scan_directory_in py os root (Listing items stat sub) path name)
    with (try_except name path
            (listing_block py os root path items stat nested)).
  unfold try_except, listing_block.
  rewrite bind_eq, classify_in_total by exact Hq.
  simpl fst. simpl snd. fold (folders_of stat items). fold (files_of stat items).
  rewrite bind_eq.
  rewrite (loop_total
             (fun folder =>
                attempt py path (JoinFolder folder) ;;;
                attempt py path (Enter folder) ;;;
                child <- call (nested folder) ;; append_child child)
             (fun f => fst (nested f)) (fun f => snd (nested f)))
    by (intros x s; now rewrite folder_step, !Hq).
  rewrite (loop_total
             (fun file =>
                attempt py path (JoinFile file) ;;;
                attempt py path (Relpath file) ;;;
                append_child (file_node os root path file))
             (file_node os root path) (fun _ => []))
    by (intros x s; now rewrite file_step, !Hq).
  rewrite flat_map_nothing. unfold extend. simpl. now rewrite app_nil_r.
Qed.

(** With no call raising, the run is the one [scan_directory] describes. *)

Lemma scan_directory_in_quiet py os root d :
  (forall p c, py p c = None) ->
  forall path name,
    scan_directory_in py os root d path name = scan_directory os root d path name.
Proof.
  intros Hq. induction d as [e|items stat sub IH]; intros path name;
    [reflexivity|].
  rewrite scan_directory_in_listing_total by apply Hq.
  rewrite scan_directory_listing. f_equal; [f_equal; f_equal|].
  - apply map_ext. intros f. now rewrite IH.
  - apply flat_map_ext. intros f. now rewrite IH.
Qed.




(** * The claims of the specification *)

(** C1, as the code has it.  Whatever calls raise during the scan, on
    either host and at any depth [loc], a file node built for the file [f]
    holds as [path] the label [old-articles/] followed by the file's
    relative path from the scan root with every backslash in it replaced
    by a forward slash, those inside names as well as the separators: the
    names, each with its backslashes replaced, joined by forward
    slashes. *)



(** C1, as the specification words it, fails: the path is not always the
    label followed by the names joined by forward slashes, which is the
    relative path with only its separators replaced.  On a POSIX host the
    file named [a\b] gets the path [old-articles/a/b], the path of the file
    [b] in the folder [a]. *)


(** C2.  In every folder node of a tree the builder produces, the children
    have all folder entries before all file entries, and the names of each
    group ascend. *)

Theorem children_folders_first_and_sorted os root d :
  Forall (fun n => ordered_children (node_children n) = true)
         (subnodes (fst (generate_archive_index os root d))).
Proof.
  apply well_ordered_subnodes. rewrite generate_archive_index_tree.
  apply scan_directory_well_ordered.
Qed.

(** C3.  [count_files] returns the number of file nodes reachable from the
    node it is given; folder nodes are not counted. *)

Theorem count_files_counts_file_nodes n :
  count_files n = List.length (filter is_file (subnodes n)).
Proof.
  induction n as [name path|name children IH] using node_induction;
    [reflexivity|].
  simpl. rewrite fold_left_count, length_filter_flat_map. simpl.
  f_equal. induction IH as [|c l Hc _ IHl]; [reflexivity|].
  simpl. now rewrite Hc, IHl.
Qed.

(** C4.  Let the [try] block of the call for the subdirectory [d] end
    with the exception [e], raised by [os.listdir] or by any later call,
    in the frame [s].  That call prints one warning, [Permission denied]
    for a [PermissionError] and [Error processing] with [str(e)] for any
    other exception, and returns the folder node of [d] with the children
    collected so far, none when it was the listing that failed.  When the
    block of the enclosing call does not itself raise, every folder and
    file of the enclosing directory has its node, [d]'s among them, each
    folder's node being what the call for that folder returns; when it was
    the listing that failed the tree is the one built were [d] empty and
    listable.  The run ends normally with the tree dumped to the output
    file. *)



(** C5, as the code has it.  With files [b.txt] and [A.txt] and folders
    [Zeta] and [alpha] in the root, listed in any order, the children are
    [Zeta], [alpha], [A.txt], [b.txt]: folders first, and in each group
    the capital letter before the small one. *)

Theorem mixed_case_children_order os root items stat sub :
  Permutation items ["b.txt"; "A.txt"; "Zeta"; "alpha"] ->
  isdir (stat "Zeta") = true -> isdir (stat "alpha") = true ->
  isdir (stat "A.txt") = false -> isfile (stat "A.txt") = true ->
  isdir (stat "b.txt") = false -> isfile (stat "b.txt") = true ->
  map node_name
      (node_children (fst (generate_archive_index os root (Listing items stat sub))))
  = ["Zeta"; "alpha"; "A.txt"; "b.txt"].
Proof.
  intros HP HZ Ha HA1 HA2 Hb1 Hb2.
  rewrite generate_archive_index_tree, scan_directory_child_names.
  unfold folders_of, files_of. rewrite classify_fst, classify_snd.
  rewrite (sort_perm_eq (filter_perm _ HP)).
  rewrite (sort_perm_eq (filter_perm _ HP)).
  simpl. rewrite HZ, Ha, HA1, HA2, Hb1, Hb2. reflexivity.
Qed.

Lemma mixed_case_children_order_witness :
  Permutation ["b.txt"; "A.txt"; "Zeta"; "alpha"] ["b.txt"; "A.txt"; "Zeta"; "alpha"]
  /\ map node_name
       (node_children (fst (generate_archive_index Posix "/srv/Old Articles"
                              mixed_case_root)))
     = ["Zeta"; "alpha"; "A.txt"; "b.txt"].
Proof.
  split; [apply Permutation_refl|].
  apply (@mixed_case_children_order Posix "/srv/Old Articles"
           ["b.txt"; "A.txt"; "Zeta"; "alpha"] mixed_case_stat
           (fun _ => empty_directory));
    [apply Permutation_refl | reflexivity ..].
Defined.

(** C5, as the specification words it, fails: the children are not in the
    order [alpha], [Zeta], [A.txt], [b.txt]. *)

Lemma mixed_case_children_order_as_stated_fails :
  map node_name
      (node_children (fst (generate_archive_index Posix "/srv/Old Articles"
                             mixed_case_root)))
  <> ["alpha"; "Zeta"; "A.txt"; "b.txt"].
Proof. vm_compute. discriminate. Qed.

(** C6, as the code has it.  An entry for which neither [os.path.isdir]
    nor [os.path.isfile] holds (a special file, a symbolic link whose
    target is missing or is itself neither) gives no node, and tree and
    console are what they would be were the entry not listed at all.  The
    names of the children are exactly the listed names for which one of
    the two tests holds, so a symbolic link to a directory or to a regular
    file does give a node. *)



(** C6, as the specification words it, fails: not every entry that is
    itself neither a directory nor a regular file is skipped.  A symbolic
    link to a regular file gives a file node. *)


(** C7.  Whatever the scan root is called and whatever it holds, the root
    node is named [old-articles]; a root without entries gives the tree
    [{"name": "old-articles", "type": "folder", "children": []}]. *)

Theorem root_label_is_fixed os root d stat sub :
  node_name (fst (generate_archive_index os root d)) = "old-articles"
  /\ fst (generate_archive_index os root (Listing [] stat sub)) =
     Folder "old-articles" []
  /\ to_json (fst (generate_archive_index os root (Listing [] stat sub))) =
     JObject [("name", JString "old-articles"); ("type", JString "folder");
              ("children", JArray [])].
Proof.
  split; [|split; reflexivity].
  rewrite generate_archive_index_tree. apply scan_directory_name.
Qed.

(** C8.  When opening the output file or dumping into it raises [e],
    [save_archive_index] ends with [e] after the one attempt, nothing is
    dumped and nothing more is printed, and [main] ends with [e] as
    well. *)

Theorem write_failure_is_fatal os w a structure e :
  path_exists w (folder_path a) = true ->
  path_isdir w (folder_path a) = true ->
  disk w (output_path_of a) = OpenFails e \/
  disk w (output_path_of a) = DumpFails e ->
  save_archive_index (disk w) structure (output_path_of a) =
    ([Open (output_path_of a)], inl e)
  /\ main os w a =
     (snd (generate_archive_index os (folder_path a) (directory w (folder_path a)))
        ++ [Open (output_path_of a)], inl e).
Proof.
  intros He Hd Hw.
  assert (Hsave : forall s, save_archive_index (disk w) s (output_path_of a) =
                            ([Open (output_path_of a)], inl e)).
  { intros s. unfold save_archive_index. now destruct Hw as [-> | ->]. }
  split; [apply Hsave|].
  unfold main. rewrite He, Hd. simpl.
  destruct (generate_archive_index os (folder_path a) (directory w (folder_path a)))
    as [tree out].
  now rewrite Hsave.
Qed.

Lemma write_failure_is_fatal_witness :
  snd (main Posix (full_disk_world site_root)
         (default_answers "/srv/Old Articles"))
  = inl (OtherException "[Errno 28] No space left on device").
Proof.
  pose proof (@write_failure_is_fatal Posix (full_disk_world site_root)
                (default_answers "/srv/Old Articles") (Folder "old-articles" [])
                (OtherException "[Errno 28] No space left on device")
                eq_refl eq_refl (or_intror eq_refl)) as [_ H].
  now rewrite H.
Defined.

(** C9.  Two scan roots with the same relative tree of subdirectory and
    file names give the same tree, whatever the two roots are called and
    wherever they are. *)

Theorem tree_depends_on_structure_only os root1 root2 d1 d2 :
  same_structure d1 d2 ->
  fst (generate_archive_index os root1 d1) =
  fst (generate_archive_index os root2 d2).
Proof.
  intros Hs. rewrite !generate_archive_index_tree.
  now apply scan_directory_same_structure.
Qed.

Lemma tree_depends_on_structure_only_witness :
  same_structure site_root site_root' /\
  fst (generate_archive_index Posix "/srv/Old Articles" site_root) =
  fst (generate_archive_index Posix "/home/ed/backup/2019" site_root').
Proof.
  assert (H : same_structure site_root site_root').
  { apply same_listing; simpl.
    - apply Permutation_refl.
    - apply Permutation_refl.
    - intros d [<-|[]]. apply same_listing; simpl.
      + apply Permutation_refl.
      + apply Permutation_refl.
      + intros d []. }
  split; [exact H|].
  exact (tree_depends_on_structure_only Posix "/srv/Old Articles"
           "/home/ed/backup/2019" H).
Defined.

(** C10.  When the root path exists and is a directory but listing it
    raises [e], the run prints the warning, finds no files and, the write
    succeeding, dumps [{"name": "old-articles", "type": "folder",
    "children": []}] to the output file and ends normally. *)

Theorem unreadable_root_still_writes os w a e :
  path_exists w (folder_path a) = true ->
  path_isdir w (folder_path a) = true ->
  directory w (folder_path a) = ListError e ->
  disk w (output_path_of a) = Written ->
  main os w a =
  ([Print Scanning;
    Print (handler e (root_of (folder_path a)));
    Print (Found 0);
    Open (output_path_of a);
    Dump (output_path_of a)
      (JObject [("name", JString "old-articles"); ("type", JString "folder");
                ("children", JArray [])]);
    Print (SavedTo (output_path_of a));
    Print Success], inr tt).
Proof.
  intros He Hd Hdir Hw. unfold main. rewrite He, Hd, Hdir. simpl.
  unfold save_archive_index. now rewrite Hw.
Qed.

Lemma unreadable_root_still_writes_witness :
  In (Dump (root_of "archive-index.json")
        (JObject [("name", JString "old-articles"); ("type", JString "folder");
                  ("children", JArray [])]))
     (fst (main Posix (fine_world (ListError PermissionError))
             (default_answers "/srv/Old Articles"))).
Proof.
  rewrite (@unreadable_root_still_writes Posix
             (fine_world (ListError PermissionError))
             (default_answers "/srv/Old Articles") PermissionError
             eq_refl eq_refl eq_refl eq_refl).
  simpl. auto 6.
Defined.

(** * Further properties of the code *)

(** ** Helper facts *)

Lemma list_sum_perm l l' : Permutation l l' -> list_sum l = list_sum l'.
Proof.
  induction 1 as [|x l l' _ IH|x y l|l l' l'' _ IH1 _ IH2]; simpl; lia.
Qed.

Lemma length_flat_map_sum (A B : Type) (f : A -> list B) l :
  List.length (flat_map f l) = list_sum (map (fun x => List.length (f x)) l).
Proof.
  induction l as [|x l IH]; [reflexivity|]. simpl. now rewrite length_app, IH.
Qed.

Lemma list_sum_map_sort (g : string -> nat) l :
  list_sum (map g (sort l)) = list_sum (map g l).
Proof. apply list_sum_perm, Permutation_map, sort_perm. Qed.




Lemma handler_is_warning e path : is_warning (Print (handler e path)) = true.
Proof. now destruct e. Qed.

Lemma scan_directory_console os root d :
  forall path name,
    forallb is_warning (snd (scan_directory os root d path name)) = true
    /\ List.length (snd (scan_directory os root d path name)) = count_unlistable d.
Proof.
  induction d as [e|items stat sub IH]; intros path name.
  - rewrite scan_directory_error. split; [|reflexivity].
    cbn [snd forallb]. now rewrite handler_is_warning.
  - rewrite scan_directory_listing. simpl. split.
    + apply forallb_forall. intros ev Hev.
      apply in_flat_map in Hev as [folder [_ Hev]].
      destruct (IH folder (join path folder) folder) as [Hw _].
      rewrite forallb_forall in Hw. now apply Hw.
    + rewrite length_flat_map_sum.
      rewrite (map_ext _ (fun folder => count_unlistable (sub folder)))
        by (intros folder; apply IH).
      unfold folders_of. now rewrite list_sum_map_sort, classify_fst.
Qed.

Lemma is_warning_is_print ev : is_warning ev = true -> is_print ev = true.
Proof. destruct ev as [[]| |]; simpl; congruence. Qed.

Lemma generate_archive_index_console os root d :
  snd (generate_archive_index os root d) =
  [Print Scanning]
    ++ snd (scan_directory os (root_of root) d (root_of root) "old-articles")
    ++ [Print (Found (count_files
                        (fst (scan_directory os (root_of root) d (root_of root)
                                "old-articles"))))].
Proof.
  unfold generate_archive_index.
  now destruct (scan_directory os (root_of root) d (root_of root) "old-articles").
Qed.

Lemma generate_archive_index_prints os root d :
  forallb is_print (snd (generate_archive_index os root d)) = true.
Proof.
  rewrite generate_archive_index_console. simpl.
  rewrite forallb_app. simpl. rewrite andb_true_r.
  apply forallb_forall. intros ev Hev. apply is_warning_is_print.
  destruct (scan_directory_console os (root_of root) d (root_of root)
              "old-articles") as [Hw _].
  rewrite forallb_forall in Hw. now apply Hw.
Qed.

Lemma files_at_scan_discovered os root d :
  forall path name loc' f p,
    In (loc', f, p) (files_at (rel path) (fst (scan_directory os root d path name))) ->
    exists loc, loc' = rel path ++ loc /\ discovered d loc f.
Proof.
  induction d as [e|items stat sub IH]; intros path name loc' f p H.
  - contradiction.
  - rewrite scan_directory_listing in H. simpl in H.
    apply in_flat_map in H as [child [Hchild H]].
    apply in_app_or in Hchild as [Hchild|Hchild];
      apply in_map_iff in Hchild as [x [<- Hx]].
    + destruct (scan_directory_folder os root (sub x) (join path x) x) as [cs E].
      rewrite E in H. rewrite <- E in H.
      apply (IH x (join path x) x) in H as [loc [-> Hd]].
      apply In_folders_of in Hx as [Hin Hdir].
      exists (x :: loc). split.
      * simpl. now rewrite <- app_assoc.
      * now apply discovered_below.
    + unfold file_node in H. simpl in H. destruct H as [H|[]].
      inversion H; subst. apply In_files_of in Hx as (Hin & Hdir & Hfile).
      exists []. split; [now rewrite app_nil_r | now apply discovered_here].
Qed.

Lemma has_backslash_app s1 s2 :
  has_backslash (s1 ++ s2) = has_backslash s1 || has_backslash s2.
Proof.
  induction s1 as [|a s1 IH]; simpl; [reflexivity|].
  now rewrite IH, orb_assoc.
Qed.

Lemma has_backslash_replace s : has_backslash (replace_backslash s) = false.
Proof.
  induction s as [|a s IH]; simpl; [reflexivity|]. rewrite IH, orb_false_r.
  destruct (Ascii.eqb a backslash) eqn:E; [reflexivity | exact E].
Qed.

Lemma web_path_no_backslash os loc f : has_backslash (web_path os loc f) = false.
Proof.
  unfold web_path. rewrite has_backslash_app, has_backslash_replace. reflexivity.
Qed.

Lemma scan_directory_children_distinct os root items stat sub path name :
  NoDup items ->
  NoDup (map node_name
           (node_children
              (fst (scan_directory os root (Listing items stat sub) path name)))).
Proof.
  intros Hnd. rewrite scan_directory_child_names. apply NoDup_app.
  - unfold folders_of. apply (Permutation_NoDup (Permutation_sym (sort_perm _))).
    rewrite classify_fst. now apply NoDup_filter.
  - unfold files_of. apply (Permutation_NoDup (Permutation_sym (sort_perm _))).
    rewrite classify_snd. now apply NoDup_filter.
  - intros x Hx Hx'. apply In_folders_of in Hx as [_ Hx].
    apply In_files_of in Hx' as (_ & Hx' & _). congruence.
Qed.

Lemma scan_directory_all_distinct os root d :
  distinct_listings d ->
  forall path name,
    Forall (fun n => NoDup (map node_name (node_children n)))
           (subnodes (fst (scan_directory os root d path name))).
Proof.
  induction 1 as [e|items stat sub Hnd Hsub IH]; intros path name.
  - repeat constructor.
  - pose proof (scan_directory_children_distinct os root stat sub path name Hnd)
      as Hhere.
    rewrite scan_directory_listing in *. simpl in *.
    constructor; [exact Hhere|].
    apply Forall_forall. intros m Hm.
    apply in_flat_map in Hm as [child [Hchild Hm]].
    apply in_app_or in Hchild as [Hchild|Hchild];
      apply in_map_iff in Hchild as [x [<- Hx]].
    + apply In_folders_of in Hx as [Hin Hdir].
      specialize (IH x Hin Hdir (join path x) x).
      rewrite Forall_forall in IH. now apply IH.
    + destruct Hm as [<-|[]]. constructor.
Qed.




Lemma scan_directory_in_console py os root d :
  forall path name,
    forallb is_warning (snd (scan_directory_in py os root d path name)) = true.
Proof.
  induction d as [e|items stat sub IH]; intros path name.
  - change (scan_directory_in py os root (ListError e) path name)
      with (Folder name [], [Print (handler e path)]).
    cbn [snd forallb]. now rewrite handler_is_warning.
  - destruct (scan_directory_in_listing py os root items stat sub path name)
      as [k [w [E Hw]]].
    rewrite E. simpl snd. rewrite forallb_app. apply andb_true_iff. split.
    + apply forallb_forall. intros ev Hev.
      apply in_flat_map in Hev as [f [_ Hev]].
      specialize (IH f (join path f) f). rewrite forallb_forall in IH.
      now apply IH.
    + destruct Hw as [->|[e ->]]; [reflexivity|].
      cbn [forallb]. now rewrite handler_is_warning.
Qed.


Lemma prints_write_nothing p l :
  forallb is_print l = true ->
  Forall (writes_only_to p) l /\ filter is_open l = [].
Proof.
  induction l as [|ev l IH]; simpl; [now split|].
  rewrite andb_true_iff. intros [Hev Hl]. destruct (IH Hl) as [H1 H2].
  destruct ev; try discriminate. simpl. split; [now constructor | exact H2].
Qed.

(** ** What the code guarantees beyond the specification's claims *)

(** X1.  Whatever calls raise, the number [count_files] finds in the tree
    built from a directory never exceeds the number of regular files
    reachable in that directory, and it is the number the [Found ... files]
    line reports; when no call of the [try] blocks other than [os.listdir]
    raises, the two numbers are equal. *)


(** X2.  The order in which [os.listdir] returns the names changes neither
    the node [scan_directory] returns nor what it prints. *)

Theorem listing_order_is_irrelevant os root items items' stat sub path name :
  Permutation items items' ->
  scan_directory os root (Listing items stat sub) path name =
  scan_directory os root (Listing items' stat sub) path name.
Proof.
  intros HP. rewrite !scan_directory_listing. unfold folders_of, files_of.
  rewrite !classify_fst, !classify_snd.
  rewrite (sort_perm_eq (filter_perm (fun item => isdir (stat item)) HP)).
  rewrite (sort_perm_eq
             (filter_perm (fun item => negb (isdir (stat item)) && isfile (stat item))
                          HP)).
  reflexivity.
Qed.

Lemma listing_order_is_irrelevant_witness :
  Permutation ["index.html"; "News"] ["News"; "index.html"] /\
  scan_directory Posix (root_of "/srv/Old Articles")
    (Listing ["index.html"; "News"] site_stat site_sub)
    (root_of "/srv/Old Articles") "old-articles" =
  scan_directory Posix (root_of "/srv/Old Articles")
    (Listing ["News"; "index.html"] site_stat site_sub)
    (root_of "/srv/Old Articles") "old-articles".
Proof.
  assert (H : Permutation ["index.html"; "News"] ["News"; "index.html"])
    by apply perm_swap.
  split; [exact H|].
  exact (@listing_order_is_irrelevant Posix (root_of "/srv/Old Articles")
           _ _ site_stat site_sub (root_of "/srv/Old Articles") "old-articles" H).
Defined.

(** X3.  Every file node of the tree stands for a regular file the scan
    discovered: its name is listed as a file in the directory reached
    through the folders that lead to the node. *)

Theorem file_nodes_are_discovered_files os root d loc f p :
  In (loc, f, p) (files_at [] (fst (generate_archive_index os root d))) ->
  discovered d loc f.
Proof.
  rewrite generate_archive_index_tree. intros H.
  apply (files_at_scan_discovered os (root_of root) d (root_of root)
           "old-articles") in H as [loc0 [-> Hd]].
  exact Hd.
Qed.

Lemma file_nodes_are_discovered_files_witness :
  In (["News"], "story.txt", "old-articles/News/story.txt")
     (files_at [] (fst (generate_archive_index Posix "/srv/Old Articles" site_root)))
  /\ discovered site_root ["News"] "story.txt".
Proof.
  assert (H : In (["News"], "story.txt", "old-articles/News/story.txt")
                 (files_at [] (fst (generate_archive_index Posix
                                      "/srv/Old Articles" site_root))))
    by (simpl; auto).
  split; [exact H|].
  exact (@file_nodes_are_discovered_files Posix "/srv/Old Articles" site_root
           ["News"] "story.txt" "old-articles/News/story.txt" H).
Defined.

(** X4.  No [path] in the tree holds a backslash, on either host and
    whatever the names are. *)

Theorem paths_hold_no_backslash os root d :
  Forall (fun entry => has_backslash (snd entry) = false)
         (files_at [] (fst (generate_archive_index os root d))).
Proof.
  apply Forall_forall. intros [[loc f] p] H. simpl.
  rewrite generate_archive_index_tree in H.
  rewrite (files_at_scan_sound os (root_of root) d eq_refl
             (root_of root) "old-articles" loc f p H).
  apply web_path_no_backslash.
Qed.

(** X5.  Whatever calls raise, all that [scan_directory] prints is
    warnings; when no call of the [try] blocks other than [os.listdir]
    raises, there is one for each directory it reaches and cannot list. *)

Theorem scan_prints_only_warnings py os root d path name :
  forallb is_warning (snd (scan_directory_in py os root d path name)) = true
  /\ ((forall p c, py p c = None) ->
      List.length (snd (scan_directory_in py os root d path name))
      = count_unlistable d).
Proof.
  split; [apply scan_directory_in_console|].
  intros Hq. rewrite scan_directory_in_quiet by exact Hq.
  apply scan_directory_console.
Qed.

(** X6.  When every listing holds each name once, the children of every
    folder node have distinct names. *)

Theorem children_names_are_distinct os root d :
  distinct_listings d ->
  Forall (fun n => NoDup (map node_name (node_children n)))
         (subnodes (fst (generate_archive_index os root d))).
Proof.
  intros H. rewrite generate_archive_index_tree.
  now apply scan_directory_all_distinct.
Qed.

Lemma children_names_are_distinct_witness :
  distinct_listings site_root /\
  NoDup (map node_name
           (node_children
              (fst (generate_archive_index Posix "/srv/Old Articles" site_root)))).
Proof.
  assert (H : distinct_listings site_root).
  { apply distinct_listing.
    - repeat constructor; simpl; intuition discriminate.
    - intros d [<-|[<-|[]]] Hd; [cbv in Hd; discriminate Hd|].
      apply distinct_listing.
      + repeat constructor; simpl; intuition.
      + intros d' [<-|[]] Hd'. cbv in Hd'. discriminate Hd'. }
  split; [exact H|].
  exact (Forall_inv (@children_names_are_distinct Posix "/srv/Old Articles"
                       site_root H)).
Defined.

(** X7.  When the root path does not exist or is not a directory, [main]
    prints the matching error line and returns; nothing is scanned, opened
    or written. *)

Theorem invalid_root_writes_nothing os w a :
  path_exists w (folder_path a) = false \/ path_isdir w (folder_path a) = false ->
  main os w a =
  ([Print (if path_exists w (folder_path a)
           then NotAFolder (folder_path a)
           else NotFound (folder_path a))], inr tt).
Proof.
  intros H. unfold main.
  destruct (path_exists w (folder_path a)); simpl; [|reflexivity].
  destruct H as [H|H]; [discriminate H|]. now rewrite H.
Qed.

Lemma invalid_root_writes_nothing_witness :
  main Posix
    {| path_exists := fun _ => false; path_isdir := fun _ => false;
       directory := fun _ => not_a_directory; disk := fun _ => Written |}
    (default_answers "/srv/Missing")
  = ([Print (NotFound "/srv/Missing")], inr tt).
Proof.
  exact (@invalid_root_writes_nothing Posix
           {| path_exists := fun _ => false; path_isdir := fun _ => false;
              directory := fun _ => not_a_directory; disk := fun _ => Written |}
           (default_answers "/srv/Missing") (or_introl eq_refl)).
Defined.

(** X8.  Whatever the world and the answers, a run opens a file for
    writing at most once, and the only path it opens or dumps to is the
    chosen output path. *)

Theorem main_writes_only_the_output_file os w a :
  Forall (writes_only_to (output_path_of a)) (fst (main os w a))
  /\ List.length (filter is_open (fst (main os w a))) <= 1.
Proof.
  unfold main.
  destruct (path_exists w (folder_path a)); simpl;
    [|split; [repeat constructor | lia]].
  destruct (path_isdir w (folder_path a)); simpl;
    [|split; [repeat constructor | lia]].
  pose proof (generate_archive_index_prints os (folder_path a)
                (directory w (folder_path a))) as Hp.
  destruct (generate_archive_index os (folder_path a) (directory w (folder_path a)))
    as [structure out].
  simpl in Hp.
  destruct (prints_write_nothing (output_path_of a) out Hp) as [Hout Hopen].
  unfold save_archive_index.
  destruct (disk w (output_path_of a)); simpl;
    rewrite filter_app, Hopen; simpl; (split; [|lia]);
    apply Forall_app; split; try exact Hout; repeat constructor.
Qed.

(** X9.  The last component of the path the index is saved to always ends
    in [.json]. *)

